(** * wotpy.wot.exposed.thing: the ExposedThing runtime

    A shallow embedding of [wotpy/wot/exposed/thing.py]: the handler
    tables, the property value store, the coroutines [read_property],
    [write_property] and [invoke_action], the subscription helpers and the
    operations that change the Thing Description.

    Python dictionaries are [gmap]s, the [Subject] behind [_events_stream] is
    the list of the items passed to [on_next] (oldest first), a method that
    mutates [self] is a function in the state-and-exception monad [M], and a
    method that only reads [self] is a function of the state.  The servient
    ([expose], [destroy], [__eq__], [__hash__]) is outside this development. *)

From stdpp Require Import gmap strings list fin_maps.

Local Open Scope string_scope.
Local Open Scope list_scope.
Local Set Warnings "-register-all".

(** ** Python values and exceptions *)

Inductive value : Type :=
| VNone
| VBool (b : bool)
| VInt (z : Z)
| VStr (s : string)
| VList (items : list value)
| VObject (attrs : list (string * value)).

Inductive exn : Type :=
| ValueError (format : string) (arg : value)  (* ValueError(format.format(arg)) *)
| TypeError (msg : string)
| Exception (msg : string)
| KeyError (key : string)
| AttributeError (attr : string).

(** What evaluating an expression or a call gives: a value, or a raised
    exception. *)
Inductive result (A : Type) : Type :=
| Return (a : A)
| Raise (e : exn).
Arguments Return {A} a.
Arguments Raise {A} e.

(** A settled [tornado.concurrent.Future]. *)
Inductive Future (A : Type) : Type :=
| Resolved (a : A)
| Rejected (e : exn).
Arguments Resolved {A} a.
Arguments Rejected {A} e.

(** [getattr(v, attr)] on a payload value: only an object carries
    attributes. *)
Fixpoint lookup_attr (attr : string) (attrs : list (string * value)) : option value :=
  match attrs with
  | [] => None
  | (k, v) :: rest => if String.eqb k attr then Some v else lookup_attr attr rest
  end.

Definition getattr (v : value) (attr : string) : result value :=
  match v with
  | VObject attrs =>
      match lookup_attr attr attrs with
      | Some x => Return x
      | None => Raise (AttributeError attr)
      end
  | _ => Raise (AttributeError attr)
  end.

(** [v == name] for a [str] [name]. *)
Definition eq_str (v : value) (name : string) : bool :=
  match v with
  | VStr s => String.eqb s name
  | _ => false
  end.

(** ** The Thing and its interactions (wotpy.td) *)

(** Modelled from the spec: the classes [Property], [Action] and [Event] of
    [wotpy.td.interaction] are missing.  The spec's data model gives
    an interaction a name as identity and the variants Property (writable,
    observable), Action (input, output) and Event (data schema); the fields
    are those the constructor calls of [add_property], [add_action] and
    [add_event] pass. *)
Inductive Interaction : Type :=
| Property (id : string) (label description value_type : value)
           (writable observable : bool)
| Action (id : string) (label description output input : value)
| Event (id : string) (label description value_type : value).

Definition interaction_id (i : Interaction) : string :=
  match i with
  | Property id _ _ _ _ _ => id
  | Action id _ _ _ _ => id
  | Event id _ _ _ => id
  end.

(** [interaction.writable]: only a Property has the attribute. *)
Definition writable_of (i : Interaction) : result bool :=
  match i with
  | Property _ _ _ _ w _ => Return w
  | _ => Raise (AttributeError "writable")
  end.

(** [interaction.observable]. *)
Definition observable_of (i : Interaction) : result bool :=
  match i with
  | Property _ _ _ _ _ o => Return o
  | _ => Raise (AttributeError "observable")
  end.

(** Modelled from the spec: the class [Thing] of [wotpy.td.thing] is
    missing.  The spec's InteractionRegistry owns the current set of
    interaction definitions, unique by name, and offers lookup by name, add
    and remove. *)
Record Thing : Type := {
  thing_name : string;
  interactions : gmap string Interaction
}.

(** Modelled from the spec: [Thing.find_interaction(name=...)], lookup by
    name; a name that is not a string names nothing. *)
Definition find_interaction (name : value) (t : Thing) : option Interaction :=
  match name with
  | VStr n => interactions t !! n
  | _ => None
  end.

(** Modelled from the spec: [Thing.add_interaction(interaction)] adds the
    definition under its name. *)
Definition add_interaction (i : Interaction) (t : Thing) : Thing :=
  {| thing_name := thing_name t;
     interactions := <[interaction_id i := i]> (interactions t) |}.

(** Modelled from the spec: [Thing.remove_interaction(name=...)] removes the
    definition of that name. *)
Definition remove_interaction (name : string) (t : Thing) : Thing :=
  {| thing_name := thing_name t;
     interactions := delete name (interactions t) |}.

(** ** Dictionaries and emitted events (wotpy.wot.dictionaries, .events, .enums) *)

Inductive TDChangeType : Type := PROPERTY | ACTION | EVENT.
Inductive TDChangeMethod : Type := ADD | REMOVE.

Record ThingPropertyInit : Type := {
  pi_label : value;
  pi_description : value;
  pi_value_type : value;
  pi_writable : bool;
  pi_observable : bool;
  pi_value : value
}.

Record ThingActionInit : Type := {
  ai_label : value;
  ai_description : value;
  ai_output : value;
  ai_input : value
}.

Record ThingEventInit : Type := {
  ei_label : value;
  ei_description : value;
  ei_value_type : value
}.

Record PropertyChangeEventInit : Type := {
  pc_name : string;
  pc_value : value
}.

Record ActionInvocationEventInit : Type := {
  action_name : string;
  return_value : value
}.

(** [data] and [description] are keyword arguments that the Remove calls
    leave out: [None] is the omitted argument. *)
Record ThingDescriptionChangeEventInit : Type := {
  td_change_type : TDChangeType;
  method : TDChangeMethod;
  name : string;
  data : option value;
  description : option value
}.

(** Modelled from the spec: the classes of [wotpy.wot.events] are missing.
    An emitted event is a tagged union over PropertyChange,
    ActionInvocation, DescriptionChange and the user-defined event, and it
    carries a name and a payload. *)
Inductive EmittedEvent : Type :=
| PropertyChangeEmittedEvent (init : PropertyChangeEventInit)
| ThingDescriptionChangeEmittedEvent (init : ThingDescriptionChangeEventInit)
| ActionInvocationEmittedEvent (init : ActionInvocationEventInit)
| EmittedEvent_ (name : string) (init : value).

(** Modelled from the spec: [DefaultThingEvent] of [wotpy.wot.enums] is
    missing; the spec names the first two, the third is the name of the
    W3C Scripting API. *)
Definition PROPERTY_CHANGE : string := "propertychange".
Definition DESCRIPTION_CHANGE : string := "descriptionchange".
Definition ACTION_INVOCATION : string := "actioninvocation".

(** [item.name] *)
Definition event_name (item : EmittedEvent) : string :=
  match item with
  | PropertyChangeEmittedEvent _ => PROPERTY_CHANGE
  | ThingDescriptionChangeEmittedEvent _ => DESCRIPTION_CHANGE
  | ActionInvocationEmittedEvent _ => ACTION_INVOCATION
  | EmittedEvent_ name _ => name
  end.

(** [item.data.name] *)
Definition event_data_name (item : EmittedEvent) : result value :=
  match item with
  | PropertyChangeEmittedEvent init => Return (VStr (pc_name init))
  | ThingDescriptionChangeEmittedEvent init => Return (VStr (name init))
  | ActionInvocationEmittedEvent _ => Raise (AttributeError "name")
  | EmittedEvent_ _ payload => getattr payload "name"
  end.

(** ** Handlers *)

(** A handler is a callable.  The three defaults are bound methods of the
    ExposedThing; a handler supplied by the application is given the
    positional arguments and the property values (the state the spec lets an
    override share with the defaults), and the Future it returns is taken
    when it has settled.  Keyword arguments are not carried. *)
Inductive handler : Type :=
| _default_retrieve_property
| _default_update_property
| _default_invoke_action
| application_handler
    (f : list value -> gmap string value -> Future value * gmap string value).

Module HandlerKeys.
Definition RETRIEVE_PROPERTY : string := "retrieve_property".
Definition UPDATE_PROPERTY : string := "update_property".
Definition INVOKE_ACTION : string := "invoke_action".
Definition OBSERVE : string := "observe".
(** [EnumListMixin.list()] *)
Definition list : list string :=
  [RETRIEVE_PROPERTY; UPDATE_PROPERTY; INVOKE_ACTION; OBSERVE].
End HandlerKeys.

(** ** The ExposedThing *)

(** [_interaction_states] has the one key [PROPERTY_VALUES], fixed at
    construction: it is the field [property_values], keyed by the identity
    of the interaction. *)
Record ExposedThing : Type := {
  _thing : Thing;
  property_values : gmap string value;
  _handlers_global : gmap string handler;
  _handlers : gmap string (gmap string handler);
  _events_stream : list EmittedEvent
}.

Definition __init__ (thing : Thing) : ExposedThing :=
  {| _thing := thing;
     property_values := ∅;
     _handlers_global :=
       <[HandlerKeys.RETRIEVE_PROPERTY := _default_retrieve_property]>
       (<[HandlerKeys.UPDATE_PROPERTY := _default_update_property]>
       (<[HandlerKeys.INVOKE_ACTION := _default_invoke_action]> ∅));
     _handlers :=
       <[HandlerKeys.RETRIEVE_PROPERTY := ∅]>
       (<[HandlerKeys.UPDATE_PROPERTY := ∅]>
       (<[HandlerKeys.INVOKE_ACTION := ∅]> ∅));
     _events_stream := [] |}.

(** ** The monad of the methods that change [self]

    A raised exception leaves the state as it was changed so far. *)

Definition M (A : Type) : Type := ExposedThing -> result A * ExposedThing.

Definition ret {A} (a : A) : M A := fun s => (Return a, s).

Definition raise {A} (e : exn) : M A := fun s => (Raise e, s).

Definition bind {A B} (m : M A) (k : A -> M B) : M B :=
  fun s =>
    match m s with
    | (Return a, s') => k a s'
    | (Raise e, s') => (Raise e, s')
    end.

(** A method that only reads [self]. *)
Definition read {A} (f : ExposedThing -> result A) : M A := fun s => (f s, s).

Definition modify (f : ExposedThing -> ExposedThing) : M unit :=
  fun s => (Return tt, f s).

Notation "'let*' x ':=' m 'in' k" := (bind m (fun x => k))
  (at level 10, x name, m at level 100, k at level 200).

(** [@tornado.gen.coroutine]: the call returns a Future, which an exception
    raised in the body rejects. *)
Definition coroutine {A} (body : M A) : ExposedThing -> Future A * ExposedThing :=
  fun s =>
    match body s with
    | (Return a, s') => (Resolved a, s')
    | (Raise e, s') => (Rejected e, s')
    end.

(** [yield future] inside a coroutine. *)
Definition yield {A} (future : Future A) : M A :=
  match future with
  | Resolved a => ret a
  | Rejected e => raise e
  end.

Definition with_thing (t : Thing) (s : ExposedThing) : ExposedThing :=
  {| _thing := t;
     property_values := property_values s;
     _handlers_global := _handlers_global s;
     _handlers := _handlers s;
     _events_stream := _events_stream s |}.

Definition with_property_values (pv : gmap string value) (s : ExposedThing)
  : ExposedThing :=
  {| _thing := _thing s;
     property_values := pv;
     _handlers_global := _handlers_global s;
     _handlers := _handlers s;
     _events_stream := _events_stream s |}.

Definition with_handlers_global (g : gmap string handler) (s : ExposedThing)
  : ExposedThing :=
  {| _thing := _thing s;
     property_values := property_values s;
     _handlers_global := g;
     _handlers := _handlers s;
     _events_stream := _events_stream s |}.

Definition with_handlers (h : gmap string (gmap string handler)) (s : ExposedThing)
  : ExposedThing :=
  {| _thing := _thing s;
     property_values := property_values s;
     _handlers_global := _handlers_global s;
     _handlers := h;
     _events_stream := _events_stream s |}.

(** [self._events_stream.on_next(item)] *)
Definition publish (item : EmittedEvent) (s : ExposedThing) : ExposedThing :=
  {| _thing := _thing s;
     property_values := property_values s;
     _handlers_global := _handlers_global s;
     _handlers := _handlers s;
     _events_stream := _events_stream s ++ [item] |}.

Definition on_next (item : EmittedEvent) : M unit := modify (publish item).

(** ** Private methods *)

Definition _set_property_value (prop : Interaction) (v : value) : M unit :=
  modify (fun s =>
    with_property_values (<[interaction_id prop := v]> (property_values s)) s).

Definition _get_property_value (prop : Interaction) (s : ExposedThing) : value :=
  default VNone (property_values s !! interaction_id prop).

Definition _set_handler (handler_type : string) (h : handler)
    (interaction : option Interaction) : M unit :=
  modify (fun s =>
    match interaction, _handlers s !! handler_type with
    | Some i, Some table =>
        with_handlers
          (<[handler_type := <[interaction_id i := h]> table]> (_handlers s)) s
    | _, _ =>
        with_handlers_global (<[handler_type := h]> (_handlers_global s)) s
    end).

(** A handler is a callable and so is true: [interaction_handler or g] is
    the interaction handler whenever the lookup found one. *)
Definition _get_handler (handler_type : string)
    (interaction : option Interaction) (s : ExposedThing) : result handler :=
  let interaction_handler :=
    match interaction with
    | Some i => default ∅ (_handlers s !! handler_type) !! interaction_id i
    | None => None
    end in
  match interaction_handler with
  | Some h => Return h
  | None =>
      match _handlers_global s !! handler_type with
      | Some g => Return g
      | None => Raise (KeyError handler_type)
      end
  end.

(** An interaction is an object and so is true: [not interaction] holds
    only of the [None] of a failed lookup. *)
Definition _find_interaction (name : value) (s : ExposedThing)
  : result Interaction :=
  match find_interaction name (_thing s) with
  | Some interaction => Return interaction
  | None => Raise (ValueError "Interaction not found: {}" name)
  end.

Definition _default_retrieve_property_handler (property_name : value)
  : M (Future value) :=
  let* prop := read (_find_interaction property_name) in
  let* prop_value := read (fun s => Return (_get_property_value prop s)) in
  ret (Resolved prop_value).

Definition _default_update_property_handler (property_name v : value)
  : M (Future value) :=
  let* prop := read (_find_interaction property_name) in
  let* _ := _set_property_value prop v in
  ret (Resolved VNone).

Definition _default_invoke_action_handler : M (Future value) :=
  ret (Rejected (Exception "Undefined action handler")).

(** The TypeError of a call with the wrong number of arguments (the text
    is the interpreter's). *)
Definition arity_error : exn := TypeError "wrong number of arguments".

(** Calling a handler with positional arguments. *)
Definition call (h : handler) (args : list value) : M (Future value) :=
  match h with
  | _default_retrieve_property =>
      match args with
      | [property_name] => _default_retrieve_property_handler property_name
      | _ => raise arity_error
      end
  | _default_update_property =>
      match args with
      | [property_name; v] => _default_update_property_handler property_name v
      | _ => raise arity_error
      end
  | _default_invoke_action =>
      match args with
      | [] => _default_invoke_action_handler
      | _ => raise arity_error
      end
  | application_handler f =>
      fun s =>
        let '(future, pv) := f args (property_values s) in
        (Return future, with_property_values pv s)
  end.

(** ** Reading, writing, invoking *)

Definition read_property (name : string)
  : ExposedThing -> Future value * ExposedThing :=
  coroutine (
    let* interaction := read (_find_interaction (VStr name)) in
    let* h := read (_get_handler HandlerKeys.RETRIEVE_PROPERTY (Some interaction)) in
    let* future := call h [VStr name] in
    let* v := yield future in
    ret v).

Definition write_property (name : string) (v : value)
  : ExposedThing -> Future value * ExposedThing :=
  coroutine (
    let* interaction := read (_find_interaction (VStr name)) in
    let* writable := read (fun _ => writable_of interaction) in
    if negb writable then raise (TypeError "Property is non-writable") else
    let* h := read (_get_handler HandlerKeys.UPDATE_PROPERTY (Some interaction)) in
    let* future := call h [VStr name; v] in
    let* _ := yield future in
    let* _ := on_next (PropertyChangeEmittedEvent {| pc_name := name; pc_value := v |}) in
    ret VNone).

Definition invoke_action (name : string) (args : list value)
  : ExposedThing -> Future value * ExposedThing :=
  coroutine (
    let* interaction := read (_find_interaction (VStr name)) in
    let* h := read (_get_handler HandlerKeys.INVOKE_ACTION (Some interaction)) in
    let* future := call h args in
    let* r := yield future in
    let* _ := on_next (ActionInvocationEmittedEvent
                         {| action_name := name; return_value := r |}) in
    ret r).

(** ** Subscriptions *)

(** What [on_event], [on_property_change] and [on_td_change] return: the
    Observable that fails every subscriber, or the event stream behind a
    filter. *)
Inductive Observable : Type :=
| Observable_throw (e : exn)
| Observable_filter (predicate : EmittedEvent -> result bool).

Inductive Notification : Type :=
| OnNext (item : EmittedEvent)
| OnError (e : exn).

(** What an observer of the filtered stream is sent for the items published
    while it is subscribed; a predicate that raises ends the sequence with
    the error. *)
Fixpoint filtered (predicate : EmittedEvent -> result bool)
    (published : list EmittedEvent) : list Notification :=
  match published with
  | [] => []
  | item :: rest =>
      match predicate item with
      | Return true => OnNext item :: filtered predicate rest
      | Return false => filtered predicate rest
      | Raise e => [OnError e]
      end
  end.

(** [observable.subscribe(observer)], followed by the publication of
    [published]. *)
Definition subscribe (o : Observable) (published : list EmittedEvent)
  : list Notification :=
  match o with
  | Observable_throw e => [OnError e]
  | Observable_filter predicate => filtered predicate published
  end.

Definition event_filter (name : string) (item : EmittedEvent) : result bool :=
  Return (String.eqb (event_name item) name).

Definition property_change_filter (name : string) (item : EmittedEvent)
  : result bool :=
  if String.eqb (event_name item) PROPERTY_CHANGE then
    match event_data_name item with
    | Return n => Return (eq_str n name)
    | Raise e => Raise e
    end
  else Return false.


Definition on_event (name : string) (s : ExposedThing) : result Observable :=
  match _find_interaction (VStr name) s with
  | Return _ => Return (Observable_filter (event_filter name))
  | Raise (ValueError _ _) => Return (Observable_throw (Exception "Unknown event"))
  | Raise e => Raise e
  end.

Definition on_property_change (name : string) (s : ExposedThing)
  : result Observable :=
  match _find_interaction (VStr name) s with
  | Return interaction =>
      match observable_of interaction with
      | Return observable =>
          if negb observable
          then Return (Observable_throw (Exception "Property is not observable"))
          else Return (Observable_filter (property_change_filter name))
      | Raise e => Raise e
      end
  | Raise (ValueError _ _) =>
      Return (Observable_throw (Exception "Unknown property"))
  | Raise e => Raise e
  end.


Definition emit_event (event_name : string) (payload : value) : M unit :=
  let* found := read (fun s => Return (find_interaction (VStr event_name) (_thing s))) in
  match found with
  | None => raise (ValueError "Unknown event: {}" (VStr event_name))
  | Some _ => on_next (EmittedEvent_ event_name payload)
  end.

(** ** Changing the Thing Description *)

(** The serializers of [wotpy.wot.dictionaries] and [wotpy.td.description]
    are taken as given: [to_dict] of the three init dictionaries and
    [ThingDescription.from_thing(thing).to_dict()]. *)
Class Serializers : Type := {
  property_init_to_dict : ThingPropertyInit -> value;
  action_init_to_dict : ThingActionInit -> value;
  event_init_to_dict : ThingEventInit -> value;
  thing_description_to_dict : Thing -> value
}.

Section Description.
Context `{Serializers}.

Definition add_property (name : string) (property_init : ThingPropertyInit)
  : M unit :=
  let prop := Property name (pi_label property_init)
                (pi_description property_init) (pi_value_type property_init)
                (pi_writable property_init) (pi_observable property_init) in
  let* _ := modify (fun s => with_thing (add_interaction prop (_thing s)) s) in
  let* _ := _set_property_value prop (pi_value property_init) in
  let* td := read (fun s => Return (thing_description_to_dict (_thing s))) in
  on_next (ThingDescriptionChangeEmittedEvent
             {| td_change_type := PROPERTY; method := ADD; name := name;
                data := Some (property_init_to_dict property_init);
                description := Some td |}).

Definition add_action (name : string) (action_init : ThingActionInit)
  : M unit :=
  let action := Action name (ai_label action_init)
                  (ai_description action_init) (ai_output action_init)
                  (ai_input action_init) in
  let* _ := modify (fun s => with_thing (add_interaction action (_thing s)) s) in
  let* td := read (fun s => Return (thing_description_to_dict (_thing s))) in
  on_next (ThingDescriptionChangeEmittedEvent
             {| td_change_type := ACTION; method := ADD; name := name;
                data := Some (action_init_to_dict action_init);
                description := Some td |}).

Definition add_event (name : string) (event_init : ThingEventInit)
  : M unit :=
  let event := Event name (ei_label event_init)
                 (ei_description event_init) (ei_value_type event_init) in
  let* _ := modify (fun s => with_thing (add_interaction event (_thing s)) s) in
  let* td := read (fun s => Return (thing_description_to_dict (_thing s))) in
  on_next (ThingDescriptionChangeEmittedEvent
             {| td_change_type := EVENT; method := ADD; name := name;
                data := Some (event_init_to_dict event_init);
                description := Some td |}).
End Description.

Definition remove_property (name : string) : M unit :=
  let* _ := modify (fun s => with_thing (remove_interaction name (_thing s)) s) in
  on_next (ThingDescriptionChangeEmittedEvent
             {| td_change_type := PROPERTY; method := REMOVE; name := name;
                data := None; description := None |}).

Definition remove_action (name : string) : M unit :=
  let* _ := modify (fun s => with_thing (remove_interaction name (_thing s)) s) in
  on_next (ThingDescriptionChangeEmittedEvent
             {| td_change_type := ACTION; method := REMOVE; name := name;
                data := None; description := None |}).

Definition remove_event (name : string) : M unit :=
  let* _ := modify (fun s => with_thing (remove_interaction name (_thing s)) s) in
  on_next (ThingDescriptionChangeEmittedEvent
             {| td_change_type := EVENT; method := REMOVE; name := name;
                data := None; description := None |}).

(** ** Setting handlers *)

Definition set_action_handler (action_handler : handler)
    (action_name : option string) : M unit :=
  let* interaction :=
    match action_name with
    | Some n => let* i := read (_find_interaction (VStr n)) in ret (Some i)
    | None => ret None
    end in
  _set_handler HandlerKeys.INVOKE_ACTION action_handler interaction.

Definition set_property_read_handler (read_handler : handler)
    (property_name : option string) : M unit :=
  let* interaction :=
    match property_name with
    | Some n => let* i := read (_find_interaction (VStr n)) in ret (Some i)
    | None => ret None
    end in
  _set_handler HandlerKeys.RETRIEVE_PROPERTY read_handler interaction.

Definition set_property_write_handler (write_handler : handler)
    (property_name : option string) : M unit :=
  let* interaction :=
    match property_name with
    | Some n => let* i := read (_find_interaction (VStr n)) in ret (Some i)
    | None => ret None
    end in
  _set_handler HandlerKeys.UPDATE_PROPERTY write_handler interaction.

(** ** Handler configurations and reachable states *)

(** No handler was set for the interaction of identity [id] under
    [handler_type]. *)
Definition no_override (handler_type id : string) (s : ExposedThing) : Prop :=
  default ∅ (_handlers s !! handler_type) !! id = None.

(** The global handler of [handler_type] is [h]. *)
Definition global_is (handler_type : string) (h : handler) (s : ExposedThing)
  : Prop :=
  _handlers_global s !! handler_type = Some h.

(** The handler keys that [__init__] gives a global handler and a table of
    interaction handlers. *)
Definition seeded_keys : list string :=
  [HandlerKeys.RETRIEVE_PROPERTY; HandlerKeys.UPDATE_PROPERTY;
   HandlerKeys.INVOKE_ACTION].

Definition seeded (s : ExposedThing) : Prop :=
  ∀ handler_type, handler_type ∈ seeded_keys →
    is_Some (_handlers_global s !! handler_type) ∧
    is_Some (_handlers s !! handler_type).

(** The handler tables of the two states are the same. *)
Definition same_tables (s s' : ExposedThing) : Prop :=
  _handlers_global s' = _handlers_global s ∧ _handlers s' = _handlers s.

(** A call of a public method that may change the ExposedThing. *)
Inductive method_call : Type :=
| Call_read_property (name : string)
| Call_write_property (name : string) (v : value)
| Call_invoke_action (name : string) (args : list value)
| Call_emit_event (event_name : string) (payload : value)
| Call_add_property (name : string) (property_init : ThingPropertyInit)
| Call_remove_property (name : string)
| Call_add_action (name : string) (action_init : ThingActionInit)
| Call_remove_action (name : string)
| Call_add_event (name : string) (event_init : ThingEventInit)
| Call_remove_event (name : string)
| Call_set_action_handler (h : handler) (action_name : option string)
| Call_set_property_read_handler (h : handler) (property_name : option string)
| Call_set_property_write_handler (h : handler) (property_name : option string).

Section Reachable.
Context `{Serializers}.

(** The ExposedThing after the call, whether it returned or raised. *)
Definition after (c : method_call) (s : ExposedThing) : ExposedThing :=
  match c with
  | Call_read_property name => snd (read_property name s)
  | Call_write_property name v => snd (write_property name v s)
  | Call_invoke_action name args => snd (invoke_action name args s)
  | Call_emit_event event_name payload => snd (emit_event event_name payload s)
  | Call_add_property name property_init => snd (add_property name property_init s)
  | Call_remove_property name => snd (remove_property name s)
  | Call_add_action name action_init => snd (add_action name action_init s)
  | Call_remove_action name => snd (remove_action name s)
  | Call_add_event name event_init => snd (add_event name event_init s)
  | Call_remove_event name => snd (remove_event name s)
  | Call_set_action_handler h n => snd (set_action_handler h n s)
  | Call_set_property_read_handler h n => snd (set_property_read_handler h n s)
  | Call_set_property_write_handler h n => snd (set_property_write_handler h n s)
  end.

(** The states an ExposedThing is in after its construction and any
    sequence of calls. *)
Inductive reachable : ExposedThing -> Prop :=
| reachable_init (thing : Thing) : reachable (__init__ thing)
| reachable_call (c : method_call) (s : ExposedThing) :
    reachable s -> reachable (after c s).
End Reachable.






(** ** A lamp, for the examples *)

Definition temp : Interaction :=
  Property "temp" VNone (VStr "temperature") (VStr "number") true true.

Definition serial : Interaction :=
  Property "serial" VNone (VStr "serial number") (VStr "string") false false.

Definition toggle : Interaction :=
  Action "toggle" VNone (VStr "toggle the lamp") VNone VNone.

Definition motion : Interaction :=
  Event "motion" VNone (VStr "motion seen") (VStr "boolean").

Definition lamp : Thing :=
  {| thing_name := "lamp";
     interactions :=
       <["temp" := temp]> (<["serial" := serial]>
       (<["toggle" := toggle]> (<["motion" := motion]> ∅))) |}.

Definition temp_init : ThingPropertyInit :=
  {| pi_label := VNone; pi_description := VStr "temperature";
     pi_value_type := VStr "number"; pi_writable := true;
     pi_observable := true; pi_value := VInt 20 |}.

(** Serializers that keep the description only, and the names of the
    interactions as the Thing Description. *)
Definition example_serializers : Serializers :=
  {| property_init_to_dict := fun i => VObject [("description", pi_description i)];
     action_init_to_dict := fun i => VObject [("description", ai_description i)];
     event_init_to_dict := fun i => VObject [("description", ei_description i)];
     thing_description_to_dict := fun t =>
       VList (VStr <$> (map_to_list (interactions t)).*1) |}.

(** A write handler of the application that rejects every write. *)
Definition rejecting_handler : handler :=
  application_handler (fun _ pv => (Rejected (Exception "read only"), pv)).

(** An action handler of the application that returns its first argument. *)
Definition echo_handler : handler :=
  application_handler (fun args pv => (Resolved (default VNone (head args)), pv)).

(** * Properties *)

(** ** Stepping through the monad *)

Lemma bind_read {A B} (f : ExposedThing -> result A) (k : A -> M B) s a :
  f s = Return a -> bind (read f) k s = k a s.
Proof. intros Hf. unfold bind, read. by rewrite Hf. Qed.

Lemma bind_read_raise {A B} (f : ExposedThing -> result A) (k : A -> M B) s e :
  f s = Raise e -> bind (read f) k s = (Raise e, s).
Proof. intros Hf. unfold bind, read. by rewrite Hf. Qed.

Lemma find_interaction_found name s i :
  find_interaction name (_thing s) = Some i -> _find_interaction name s = Return i.
Proof. intros Hf. unfold _find_interaction. by rewrite Hf. Qed.

Lemma find_interaction_missing name s :
  find_interaction name (_thing s) = None ->
  _find_interaction name s = Raise (ValueError "Interaction not found: {}" name).
Proof. intros Hf. unfold _find_interaction. by rewrite Hf. Qed.

(** Without an interaction handler, resolution gives the global handler. *)
Lemma get_handler_global handler_type i h s :
  no_override handler_type (interaction_id i) s ->
  global_is handler_type h s ->
  _get_handler handler_type (Some i) s = Return h.
Proof.
  unfold no_override, global_is, _get_handler. intros Hno Hg.
  by rewrite Hno, Hg.
Qed.


(** An Observable made by [Observable.throw] fails the observer when it
    subscribes, whatever is published. *)
Lemma subscribe_throw e published :
  subscribe (Observable_throw e) published = [OnError e].
Proof. reflexivity. Qed.

(** ** Writing and reading through the default handlers *)

(** [read_property] through the default handler gives the stored value and
    changes nothing. *)
Lemma read_property_default (s : ExposedThing) (name : string)
    (prop : Interaction) :
  find_interaction (VStr name) (_thing s) = Some prop ->
  no_override HandlerKeys.RETRIEVE_PROPERTY (interaction_id prop) s ->
  global_is HandlerKeys.RETRIEVE_PROPERTY _default_retrieve_property s ->
  read_property name s = (Resolved (_get_property_value prop s), s).
Proof.
  intros Hfind Hno Hg.
  pose proof (get_handler_global _ _ _ _ Hno Hg) as Hh.
  pose proof (find_interaction_found _ _ _ Hfind) as Hf.
  unfold read_property, coroutine, bind, read.
  rewrite Hf, Hh. cbn [call].
  unfold _default_retrieve_property_handler, bind, read.
  by rewrite Hf.
Qed.

(** [write_property] through the default handler stores the value, then
    publishes the change. *)
Lemma write_property_default (s : ExposedThing) (name : string) (v : value)
    (prop : Interaction) :
  find_interaction (VStr name) (_thing s) = Some prop ->
  writable_of prop = Return true ->
  no_override HandlerKeys.UPDATE_PROPERTY (interaction_id prop) s ->
  global_is HandlerKeys.UPDATE_PROPERTY _default_update_property s ->
  write_property name v s =
    (Resolved VNone,
     publish (PropertyChangeEmittedEvent {| pc_name := name; pc_value := v |})
       (with_property_values (<[interaction_id prop := v]> (property_values s)) s)).
Proof.
  intros Hfind Hw Hno Hg.
  pose proof (get_handler_global _ _ _ _ Hno Hg) as Hh.
  pose proof (find_interaction_found _ _ _ Hfind) as Hf.
  unfold write_property, coroutine, bind, read.
  rewrite Hf, Hw. cbn [negb]. unfold bind, read. rewrite Hh.
  cbn [call]. unfold _default_update_property_handler, bind, read.
  by rewrite Hf.
Qed.

(** C1: for a defined writable property [P] and a value [v], with no
    interaction handler set for [P] and the default global handlers,
    [write_property(P, v)] resolves and a following [read_property(P)]
    resolves to [v]. *)
Theorem write_then_read_default (s : ExposedThing) (P : string) (v : value)
    (prop : Interaction) :
  find_interaction (VStr P) (_thing s) = Some prop ->
  writable_of prop = Return true ->
  no_override HandlerKeys.UPDATE_PROPERTY (interaction_id prop) s ->
  global_is HandlerKeys.UPDATE_PROPERTY _default_update_property s ->
  no_override HandlerKeys.RETRIEVE_PROPERTY (interaction_id prop) s ->
  global_is HandlerKeys.RETRIEVE_PROPERTY _default_retrieve_property s ->
  ∃ s', write_property P v s = (Resolved VNone, s') ∧
        read_property P s' = (Resolved v, s').
Proof.
  intros Hfind Hw Hnu Hgu Hnr Hgr.
  eexists. split.
  - by apply write_property_default.
  - rewrite (read_property_default _ P prop); [| exact Hfind | exact Hnr | exact Hgr].
    unfold _get_property_value. cbn.
    by rewrite lookup_insert_eq.
Qed.

Lemma write_then_read_default_witness :
  ∃ s', write_property "temp" (VInt 20) (__init__ lamp) = (Resolved VNone, s') ∧
        read_property "temp" s' = (Resolved (VInt 20), s').
Proof.
  apply (write_then_read_default (__init__ lamp) "temp" (VInt 20) temp);
    vm_compute; reflexivity.
Defined.

(** ** Writing a property that is not writable *)

(** C2: for a defined property [P] whose [writable] flag is false,
    [write_property(P, v)] is rejected with the TypeError "Property is
    non-writable" and leaves the ExposedThing as it was: nothing is
    published, and no handler was looked up or called, whatever the handler
    tables hold. *)
Theorem write_property_non_writable (s : ExposedThing) (P : string) (v : value)
    (prop : Interaction) :
  find_interaction (VStr P) (_thing s) = Some prop ->
  writable_of prop = Return false ->
  write_property P v s = (Rejected (TypeError "Property is non-writable"), s) ∧
  _events_stream (snd (write_property P v s)) = _events_stream s.
Proof.
  intros Hfind Hw.
  pose proof (find_interaction_found _ _ _ Hfind) as Hf.
  assert (write_property P v s
          = (Rejected (TypeError "Property is non-writable"), s)) as ->; [| done].
  unfold write_property, coroutine, bind, read.
  by rewrite Hf, Hw.
Qed.

(** In the witness the handler tables are empty, so that resolving the
    handler would raise KeyError, and the global handler left for the write
    would change the property values: neither happens. *)
Lemma write_property_non_writable_witness :
  let s := with_handlers ∅ (with_handlers_global ∅ (__init__ lamp)) in
  _get_handler HandlerKeys.UPDATE_PROPERTY (Some serial) s
    = Raise (KeyError "update_property") ∧
  write_property "serial" (VStr "x") s
    = (Rejected (TypeError "Property is non-writable"), s) ∧
  _events_stream (snd (write_property "serial" (VStr "x") s)) = _events_stream s.
Proof.
  intros s. split; [reflexivity |].
  apply (write_property_non_writable s "serial" (VStr "x") serial);
    vm_compute; reflexivity.
Defined.

(** ** Invoking an action that has no handler *)

(** Invoked without arguments, a defined action [A] with no handler set for
    it and the default global handler is rejected with the Exception
    "Undefined action handler" and leaves the ExposedThing as it was:
    no ActionInvocation event is published. *)
Theorem invoke_action_undefined_handler (s : ExposedThing) (A : string)
    (action : Interaction) :
  find_interaction (VStr A) (_thing s) = Some action ->
  no_override HandlerKeys.INVOKE_ACTION (interaction_id action) s ->
  global_is HandlerKeys.INVOKE_ACTION _default_invoke_action s ->
  invoke_action A [] s = (Rejected (Exception "Undefined action handler"), s) ∧
  _events_stream (snd (invoke_action A [] s)) = _events_stream s.
Proof.
  intros Hfind Hno Hg.
  pose proof (get_handler_global _ _ _ _ Hno Hg) as Hh.
  pose proof (find_interaction_found _ _ _ Hfind) as Hf.
  assert (invoke_action A [] s
          = (Rejected (Exception "Undefined action handler"), s)) as ->; [| done].
  unfold invoke_action, coroutine, bind, read.
  by rewrite Hf, Hh.
Qed.

Lemma invoke_action_undefined_handler_witness :
  invoke_action "toggle" [] (__init__ lamp)
    = (Rejected (Exception "Undefined action handler"), __init__ lamp) ∧
  _events_stream (snd (invoke_action "toggle" [] (__init__ lamp)))
    = _events_stream (__init__ lamp).
Proof.
  apply (invoke_action_undefined_handler (__init__ lamp) "toggle" toggle);
    vm_compute; reflexivity.
Defined.

(** [_default_invoke_action_handler(self)] takes no argument, and
    [invoke_action] passes it the arguments of the invocation: called with
    arguments it raises the TypeError of the call, and again nothing is
    published. *)
Lemma invoke_action_undefined_handler_args (s : ExposedThing) (A : string)
    (action : Interaction) (arg : value) (args : list value) :
  find_interaction (VStr A) (_thing s) = Some action ->
  no_override HandlerKeys.INVOKE_ACTION (interaction_id action) s ->
  global_is HandlerKeys.INVOKE_ACTION _default_invoke_action s ->
  invoke_action A (arg :: args) s = (Rejected arity_error, s).
Proof.
  intros Hfind Hno Hg.
  pose proof (get_handler_global _ _ _ _ Hno Hg) as Hh.
  pose proof (find_interaction_found _ _ _ Hfind) as Hf.
  unfold invoke_action, coroutine, bind, read.
  by rewrite Hf, Hh.
Qed.

(** C4: for a defined action [A] with no handler set for it and the default
    global handler, an invocation that carries at least one argument is not
    rejected with the Exception "Undefined action handler": the call of the
    default handler, which takes no argument, raises a TypeError, and the
    Future of [invoke_action] is rejected with it.  The ExposedThing is left
    as it was and no ActionInvocation event is published. *)
Theorem invoke_action_default_handler_arguments (s : ExposedThing)
    (A : string) (action : Interaction) (arg : value) (args : list value) :
  find_interaction (VStr A) (_thing s) = Some action ->
  no_override HandlerKeys.INVOKE_ACTION (interaction_id action) s ->
  global_is HandlerKeys.INVOKE_ACTION _default_invoke_action s ->
  ∃ msg : string,
    invoke_action A (arg :: args) s = (Rejected (TypeError msg), s) ∧
    (invoke_action A (arg :: args) s).1
      ≠ Rejected (Exception "Undefined action handler") ∧
    _events_stream (invoke_action A (arg :: args) s).2 = _events_stream s.
Proof.
  intros Hfind Hno Hg.
  rewrite (invoke_action_undefined_handler_args s A action arg args Hfind Hno Hg).
  eexists. split; [reflexivity |]. split; [discriminate | reflexivity].
Qed.

Lemma invoke_action_default_handler_arguments_witness :
  ∃ msg : string,
    invoke_action "toggle" [VInt 1] (__init__ lamp)
      = (Rejected (TypeError msg), __init__ lamp) ∧
    (invoke_action "toggle" [VInt 1] (__init__ lamp)).1
      ≠ Rejected (Exception "Undefined action handler") ∧
    _events_stream (invoke_action "toggle" [VInt 1] (__init__ lamp)).2
      = _events_stream (__init__ lamp).
Proof.
  apply (invoke_action_default_handler_arguments (__init__ lamp) "toggle" toggle
           (VInt 1) []); vm_compute; reflexivity.
Defined.

(** ** The PropertyChange event of a write *)

(** A handler call publishes nothing. *)
Lemma call_events (h : handler) (args : list value) (s : ExposedThing) :
  _events_stream (snd (call h args s)) = _events_stream s.
Proof.
  destruct h; cbn [call].
  - destruct args as [|a [|b l]]; try reflexivity.
    unfold _default_retrieve_property_handler, bind, read.
    by destruct (_find_interaction a s).
  - destruct args as [|a [|b [|c l]]]; try reflexivity.
    unfold _default_update_property_handler, bind, read.
    by destruct (_find_interaction a s).
  - by destruct args.
  - by destruct (f args (property_values s)).
Qed.

(** C5: for a defined writable property [P] whose write handler resolves
    to [h], [write_property(P, v)] calls [h] with [P] and [v]; when the
    Future of [h] resolved, the write resolves and exactly one item is
    published, the PropertyChange event of name [P] and value [v], onto the
    state the handler left; when [h] raised or its Future was rejected, the
    write is rejected with that exception and nothing is published. *)
Theorem write_property_publishes (s : ExposedThing) (P : string) (v : value)
    (prop : Interaction) (h : handler) :
  find_interaction (VStr P) (_thing s) = Some prop ->
  writable_of prop = Return true ->
  _get_handler HandlerKeys.UPDATE_PROPERTY (Some prop) s = Return h ->
  let item := PropertyChangeEmittedEvent {| pc_name := P; pc_value := v |} in
  match call h [VStr P; v] s with
  | (Return (Resolved _), s1) =>
      write_property P v s = (Resolved VNone, publish item s1) ∧
      _events_stream (snd (write_property P v s)) = _events_stream s ++ [item]
  | (Return (Rejected e), s1) | (Raise e, s1) =>
      write_property P v s = (Rejected e, s1) ∧
      _events_stream (snd (write_property P v s)) = _events_stream s
  end.
Proof.
  intros Hfind Hw Hh item.
  pose proof (find_interaction_found _ _ _ Hfind) as Hf.
  pose proof (call_events h [VStr P; v] s) as Hev.
  assert (write_property P v s =
          match call h [VStr P; v] s with
          | (Return (Resolved _), s1) => (Resolved VNone, publish item s1)
          | (Return (Rejected e), s1) | (Raise e, s1) => (Rejected e, s1)
          end) as Hwrite.
  { unfold write_property, coroutine, bind, read.
    rewrite Hf, Hw. cbn [negb]. unfold bind, read. rewrite Hh.
    destruct (call h [VStr P; v] s) as [[[a|e]|e] s1]; reflexivity. }
  rewrite Hwrite.
  destruct (call h [VStr P; v] s) as [[[a|e]|e] s1]; cbn in Hev |- *;
    by rewrite Hev.
Qed.

Lemma write_property_publishes_witness :
  let item := PropertyChangeEmittedEvent {| pc_name := "temp"; pc_value := VInt 20 |} in
  write_property "temp" (VInt 20) (__init__ lamp)
    = (Resolved VNone,
       publish item
         (call _default_update_property [VStr "temp"; VInt 20] (__init__ lamp)).2) ∧
  _events_stream (write_property "temp" (VInt 20) (__init__ lamp)).2 = [item].
Proof.
  exact (write_property_publishes (__init__ lamp) "temp" (VInt 20) temp
           _default_update_property eq_refl eq_refl eq_refl).
Defined.

(** A write handler that rejects: the write is rejected with the handler's
    exception and the stream stays empty. *)
Example write_property_rejecting_handler :
  let s := (set_property_write_handler rejecting_handler (Some "temp")
              (__init__ lamp)).2 in
  (write_property "temp" (VInt 20) s).1 = Rejected (Exception "read only") ∧
  _events_stream (write_property "temp" (VInt 20) s).2 = [].
Proof. split; vm_compute; reflexivity. Qed.

(** ** Reading *)

(** C6: [read_property(name)] is rejected with the ValueError "Interaction
    not found" when the Thing has no interaction of that name; for a defined
    property that has no stored value (never written, never seeded), the
    default handler resolves the read to [None] and changes nothing. *)
Theorem read_property_missing_or_unset (s : ExposedThing) (name : string) :
  (find_interaction (VStr name) (_thing s) = None ->
   read_property name s
     = (Rejected (ValueError "Interaction not found: {}" (VStr name)), s)) ∧
  (∀ prop : Interaction,
     find_interaction (VStr name) (_thing s) = Some prop ->
     property_values s !! interaction_id prop = None ->
     no_override HandlerKeys.RETRIEVE_PROPERTY (interaction_id prop) s ->
     global_is HandlerKeys.RETRIEVE_PROPERTY _default_retrieve_property s ->
     read_property name s = (Resolved VNone, s)).
Proof.
  split.
  - intros Hfind.
    unfold read_property, coroutine, bind, read.
    by rewrite (find_interaction_missing _ _ Hfind).
  - intros prop Hfind Hunset Hno Hg.
    rewrite (read_property_default s name prop Hfind Hno Hg).
    unfold _get_property_value. by rewrite Hunset.
Qed.

Lemma read_property_missing_or_unset_witness :
  read_property "colour" (__init__ lamp)
    = (Rejected (ValueError "Interaction not found: {}" (VStr "colour")),
       __init__ lamp) ∧
  read_property "temp" (__init__ lamp) = (Resolved VNone, __init__ lamp).
Proof.
  split.
  - apply (proj1 (read_property_missing_or_unset (__init__ lamp) "colour")).
    vm_compute; reflexivity.
  - apply (proj2 (read_property_missing_or_unset (__init__ lamp) "temp") temp);
      vm_compute; reflexivity.
Defined.

(** ** Emitting an event *)

(** C10: [emit_event(name, payload)] raises the ValueError "Unknown event"
    and publishes nothing when the Thing has no interaction of that name;
    when it has one, it publishes exactly one item, the event of that name
    and payload. *)
Theorem emit_event_publishes (s : ExposedThing) (name : string) (payload : value) :
  (find_interaction (VStr name) (_thing s) = None ->
   emit_event name payload s
     = (Raise (ValueError "Unknown event: {}" (VStr name)), s)) ∧
  (∀ interaction : Interaction,
     find_interaction (VStr name) (_thing s) = Some interaction ->
     emit_event name payload s
       = (Return tt, publish (EmittedEvent_ name payload) s) ∧
     _events_stream (emit_event name payload s).2
       = _events_stream s ++ [EmittedEvent_ name payload]).
Proof.
  split.
  - intros Hfind. unfold emit_event, bind, read. by rewrite Hfind.
  - intros interaction Hfind.
    assert (emit_event name payload s
            = (Return tt, publish (EmittedEvent_ name payload) s)) as ->; [| done].
    unfold emit_event, bind, read. by rewrite Hfind.
Qed.

Lemma emit_event_publishes_witness :
  emit_event "colour" (VInt 1) (__init__ lamp)
    = (Raise (ValueError "Unknown event: {}" (VStr "colour")), __init__ lamp) ∧
  emit_event "motion" (VBool true) (__init__ lamp)
    = (Return tt, publish (EmittedEvent_ "motion" (VBool true)) (__init__ lamp)) ∧
  _events_stream (emit_event "motion" (VBool true) (__init__ lamp)).2
    = [EmittedEvent_ "motion" (VBool true)].
Proof.
  split.
  - apply (proj1 (emit_event_publishes (__init__ lamp) "colour" (VInt 1))).
    vm_compute; reflexivity.
  - apply (proj2 (emit_event_publishes (__init__ lamp) "motion" (VBool true)) motion).
    vm_compute; reflexivity.
Defined.

(** ** Adding a property *)

(** C7: [add_property(name, init)] returns, stores the initial value so
    that a following [read_property(name)] through the default handler
    resolves to it, and publishes exactly one item: the DescriptionChange
    event of change type Property, method Add and the given name, whose
    [data] is the serialized init dictionary and whose [description] is the
    description of the Thing with the property added. *)
Theorem add_property_seeds_and_publishes `{Serializers} (s : ExposedThing)
    (name : string) (property_init : ThingPropertyInit) :
  let s' := (add_property name property_init s).2 in
  (add_property name property_init s).1 = Return tt ∧
  is_Some (find_interaction (VStr name) (_thing s')) ∧
  _events_stream s' = _events_stream s ++
    [ThingDescriptionChangeEmittedEvent
       {| td_change_type := PROPERTY; method := ADD; name := name;
          data := Some (property_init_to_dict property_init);
          description := Some (thing_description_to_dict (_thing s')) |}] ∧
  (no_override HandlerKeys.RETRIEVE_PROPERTY name s ->
   global_is HandlerKeys.RETRIEVE_PROPERTY _default_retrieve_property s ->
   read_property name s' = (Resolved (pi_value property_init), s')).
Proof.
  intros s'. subst s'. cbn.
  split; [reflexivity |].
  split; [rewrite lookup_insert_eq; eauto |].
  split; [reflexivity |].
  intros Hno Hg.
  set (prop := Property name (pi_label property_init)
                 (pi_description property_init) (pi_value_type property_init)
                 (pi_writable property_init) (pi_observable property_init)).
  rewrite (read_property_default _ name prop).
  - unfold _get_property_value. cbn. by rewrite lookup_insert_eq.
  - cbn. by rewrite lookup_insert_eq.
  - exact Hno.
  - exact Hg.
Qed.

Lemma add_property_seeds_and_publishes_witness :
  let s' := (@add_property example_serializers "heat" temp_init (__init__ lamp)).2 in
  (@add_property example_serializers "heat" temp_init (__init__ lamp)).1 = Return tt ∧
  is_Some (find_interaction (VStr "heat") (_thing s')) ∧
  _events_stream s' =
    [ThingDescriptionChangeEmittedEvent
       {| td_change_type := PROPERTY; method := ADD; name := "heat";
          data := Some (VObject [("description", VStr "temperature")]);
          description := Some (@thing_description_to_dict example_serializers (_thing s')) |}] ∧
  read_property "heat" s' = (Resolved (VInt 20), s').
Proof.
  intros s'.
  destruct (@add_property_seeds_and_publishes example_serializers
              (__init__ lamp) "heat" temp_init) as (Hret & Hfound & Hev & Hread).
  split; [exact Hret |]. split; [exact Hfound |]. split; [exact Hev |].
  apply Hread; vm_compute; reflexivity.
Defined.

(** ** Subscribing to an event *)

(** C9: [on_event(name)] gives the Observable that fails its subscribers
    with the Exception "Unknown event" exactly when the Thing has no
    interaction of that name (otherwise it gives the stream filtered by the
    event name); and after [remove_event(name)], which returns, the next
    [on_event(name)] gives the failing Observable. *)
Theorem on_event_unknown (s : ExposedThing) (name : string) :
  (on_event name s = Return (Observable_throw (Exception "Unknown event"))
   ↔ find_interaction (VStr name) (_thing s) = None) ∧
  (∀ interaction : Interaction,
     find_interaction (VStr name) (_thing s) = Some interaction ->
     on_event name s = Return (Observable_filter (event_filter name))) ∧
  (remove_event name s).1 = Return tt ∧
  on_event name (remove_event name s).2
    = Return (Observable_throw (Exception "Unknown event")).
Proof.
  split; [| split; [| split]].
  - unfold on_event, _find_interaction.
    destruct (find_interaction (VStr name) (_thing s)); split; done.
  - intros interaction Hfind.
    unfold on_event. by rewrite (find_interaction_found _ _ _ Hfind).
  - reflexivity.
  - unfold on_event, _find_interaction. cbn.
    by rewrite lookup_delete_eq.
Qed.

Lemma on_event_unknown_witness :
  on_event "motion" (__init__ lamp) = Return (Observable_filter (event_filter "motion")) ∧
  on_event "motion" (remove_event "motion" (__init__ lamp)).2
    = Return (Observable_throw (Exception "Unknown event")) ∧
  on_event "colour" (__init__ lamp)
    = Return (Observable_throw (Exception "Unknown event")).
Proof.
  pose proof (on_event_unknown (__init__ lamp) "motion") as (_ & Hfound & _ & Hremoved).
  pose proof (on_event_unknown (__init__ lamp) "colour") as (Hiff & _).
  split; [| split].
  - apply (Hfound motion). vm_compute; reflexivity.
  - exact Hremoved.
  - apply Hiff. vm_compute; reflexivity.
Defined.

(** ** Subscribing to the changes of a property *)

(** The filter of [on_property_change] accepts an item exactly when its
    name is "propertychange" and the name in its data is the requested
    one. *)
Lemma property_change_filter_accepts (name : string) (item : EmittedEvent) :
  property_change_filter name item = Return true
  ↔ event_name item = "propertychange" ∧ event_data_name item = Return (VStr name).
Proof.
  unfold property_change_filter, PROPERTY_CHANGE.
  destruct (String.eqb_spec (event_name item) "propertychange") as [Heq|Hne].
  - destruct (event_data_name item) as [n|e].
    + split.
      * intros Hacc. split; [done |].
        destruct n; try discriminate. cbn in Hacc.
        injection Hacc as Hacc. apply String.eqb_eq in Hacc. by subst.
      * intros [_ Hn]. injection Hn as ->. cbn. by rewrite String.eqb_refl.
    + split; [discriminate | intros [_ ?]; discriminate].
  - split; [discriminate | intros [? _]; contradiction].
Qed.

(** An observer of [on_property_change(P)] that is subscribed while
    [write_property(P, v)] publishes its item is sent that one item. *)
Lemma property_change_delivered (P : string) (v : value) :
  let item := PropertyChangeEmittedEvent {| pc_name := P; pc_value := v |} in
  subscribe (Observable_filter (property_change_filter P)) [item] = [OnNext item].
Proof.
  intros item. cbn [subscribe filtered].
  assert (property_change_filter P item = Return true) as ->; [| done].
  by apply property_change_filter_accepts.
Qed.

(** C8, amended: [on_property_change(name)] gives the Observable that fails
    its subscribers with the Exception "Unknown property" when the Thing has
    no interaction of that name, and with "Property is not observable" when
    the name is that of a property whose [observable] flag is false; for an
    observable property it gives the stream behind a filter that accepts
    exactly the items named "propertychange" whose data names the requested
    property. *)
Theorem on_property_change_subscription (s : ExposedThing) (name : string) :
  (find_interaction (VStr name) (_thing s) = None ->
   on_property_change name s
     = Return (Observable_throw (Exception "Unknown property"))) ∧
  (∀ prop : Interaction,
     find_interaction (VStr name) (_thing s) = Some prop ->
     observable_of prop = Return false ->
     on_property_change name s
       = Return (Observable_throw (Exception "Property is not observable"))) ∧
  (∀ prop : Interaction,
     find_interaction (VStr name) (_thing s) = Some prop ->
     observable_of prop = Return true ->
     on_property_change name s
       = Return (Observable_filter (property_change_filter name))) ∧
  (∀ item : EmittedEvent,
     property_change_filter name item = Return true
     ↔ event_name item = "propertychange"
       ∧ event_data_name item = Return (VStr name)).
Proof.
  split; [| split; [| split]].
  - intros Hfind. unfold on_property_change.
    by rewrite (find_interaction_missing _ _ Hfind).
  - intros prop Hfind Hobs. unfold on_property_change.
    by rewrite (find_interaction_found _ _ _ Hfind), Hobs.
  - intros prop Hfind Hobs. unfold on_property_change.
    by rewrite (find_interaction_found _ _ _ Hfind), Hobs.
  - apply property_change_filter_accepts.
Qed.

Lemma on_property_change_subscription_witness :
  on_property_change "colour" (__init__ lamp)
    = Return (Observable_throw (Exception "Unknown property")) ∧
  on_property_change "serial" (__init__ lamp)
    = Return (Observable_throw (Exception "Property is not observable")) ∧
  on_property_change "temp" (__init__ lamp)
    = Return (Observable_filter (property_change_filter "temp")).
Proof.
  pose proof (on_property_change_subscription (__init__ lamp) "colour") as (Hmissing & _).
  pose proof (on_property_change_subscription (__init__ lamp) "serial") as (_ & Hhidden & _).
  pose proof (on_property_change_subscription (__init__ lamp) "temp") as (_ & _ & Hshown & _).
  split; [| split].
  - apply Hmissing. vm_compute; reflexivity.
  - apply (Hhidden serial); vm_compute; reflexivity.
  - apply (Hshown temp); vm_compute; reflexivity.
Defined.

(** C8 as stated fails on the name of an action: the lamp has no property
    named "toggle", but [on_property_change("toggle")] finds the action and
    does not give the "Unknown property" Observable; reading [observable]
    off the action raises. *)
Lemma on_property_change_action_name :
  (∀ id label description value_type writable observable,
     find_interaction (VStr "toggle") (_thing (__init__ lamp))
     ≠ Some (Property id label description value_type writable observable)) ∧
  on_property_change "toggle" (__init__ lamp)
    ≠ Return (Observable_throw (Exception "Unknown property")) ∧
  on_property_change "toggle" (__init__ lamp) = Raise (AttributeError "observable").
Proof.
  split; [| split].
  - intros id label description value_type writable observable.
    vm_compute. discriminate.
  - vm_compute. discriminate.
  - vm_compute. reflexivity.
Qed.

(** ** Resolving a handler *)

Lemma same_tables_refl s : same_tables s s.
Proof. by split. Qed.

Lemma same_tables_seeded s s' : same_tables s s' -> seeded s -> seeded s'.
Proof. intros [Hg Hh] Hs k Hk. rewrite Hg, Hh. by apply Hs. Qed.

Lemma call_same_tables (h : handler) (args : list value) (s : ExposedThing) :
  same_tables s (call h args s).2.
Proof.
  destruct h; cbn [call].
  - destruct args as [|a [|b l]]; try apply same_tables_refl.
    unfold _default_retrieve_property_handler, bind, read.
    destruct (_find_interaction a s); apply same_tables_refl.
  - destruct args as [|a [|b [|c l]]]; try apply same_tables_refl.
    unfold _default_update_property_handler, bind, read.
    destruct (_find_interaction a s); by split.
  - destruct args; apply same_tables_refl.
  - destruct (f args (property_values s)); by split.
Qed.

Lemma read_property_same_tables name s : same_tables s (read_property name s).2.
Proof.
  unfold read_property, coroutine, bind, read.
  destruct (_find_interaction (VStr name) s) as [i|e]; [| by split].
  destruct (_get_handler _ (Some i) s) as [h|e]; [| by split].
  pose proof (call_same_tables h [VStr name] s) as Hc.
  destruct (call h [VStr name] s) as [[[a|e]|e] s1]; exact Hc.
Qed.

Lemma write_property_same_tables name v s :
  same_tables s (write_property name v s).2.
Proof.
  unfold write_property, coroutine, bind, read.
  destruct (_find_interaction (VStr name) s) as [i|e]; [| by split].
  destruct (writable_of i) as [[|]|e]; cbn [negb]; [| by split | by split].
  unfold bind, read.
  destruct (_get_handler _ (Some i) s) as [h|e]; [| by split].
  pose proof (call_same_tables h [VStr name; v] s) as Hc.
  destruct (call h [VStr name; v] s) as [[[a|e]|e] s1]; exact Hc.
Qed.

Lemma invoke_action_same_tables name args s :
  same_tables s (invoke_action name args s).2.
Proof.
  unfold invoke_action, coroutine, bind, read.
  destruct (_find_interaction (VStr name) s) as [i|e]; [| by split].
  destruct (_get_handler _ (Some i) s) as [h|e]; [| by split].
  pose proof (call_same_tables h args s) as Hc.
  destruct (call h args s) as [[[a|e]|e] s1]; exact Hc.
Qed.

Lemma emit_event_same_tables name payload s :
  same_tables s (emit_event name payload s).2.
Proof.
  unfold emit_event, bind, read.
  destruct (find_interaction (VStr name) (_thing s)); by split.
Qed.

(** Setting a handler keeps every seeded key in both tables. *)
Lemma set_handler_seeded handler_type h interaction s :
  seeded s -> seeded (_set_handler handler_type h interaction s).2.
Proof.
  intros Hs k Hk. destruct (Hs k Hk) as [Hg Hh].
  unfold _set_handler, modify. cbn [snd].
  destruct interaction as [i|], (_handlers s !! handler_type) as [table|];
    cbn [_handlers_global _handlers with_handlers with_handlers_global];
    (split; [| try exact Hh]); try exact Hg;
    rewrite lookup_insert; case_decide; eauto.
Qed.

(** The body that the three public setters share, up to the handler key. *)
Lemma setter_seeded handler_type h (interaction_name : option string) s :
  seeded s ->
  seeded ((let* interaction :=
             match interaction_name with
             | Some n => let* i := read (_find_interaction (VStr n)) in ret (Some i)
             | None => ret None
             end in
           _set_handler handler_type h interaction) s).2.
Proof.
  intros Hs.
  destruct interaction_name as [n|].
  - unfold bind at 1. unfold bind at 1. unfold read.
    destruct (_find_interaction (VStr n) s) as [i|e]; [| exact Hs].
    cbn [ret]. by apply set_handler_seeded.
  - unfold bind, ret. by apply set_handler_seeded.
Qed.

Lemma init_seeded thing : seeded (__init__ thing).
Proof.
  intros k Hk. unfold seeded_keys in Hk.
  repeat (apply elem_of_cons in Hk as [-> | Hk]); [| | | by apply elem_of_nil in Hk];
    split; vm_compute; eauto.
Qed.

Section Resolution.
Context `{Serializers}.

Lemma after_seeded (c : method_call) (s : ExposedThing) :
  seeded s -> seeded (after c s).
Proof.
  intros Hs. destruct c; cbn [after].
  - exact (same_tables_seeded _ _ (read_property_same_tables _ _) Hs).
  - exact (same_tables_seeded _ _ (write_property_same_tables _ _ _) Hs).
  - exact (same_tables_seeded _ _ (invoke_action_same_tables _ _ _) Hs).
  - exact (same_tables_seeded _ _ (emit_event_same_tables _ _ _) Hs).
  - exact Hs.
  - exact Hs.
  - exact Hs.
  - exact Hs.
  - exact Hs.
  - exact Hs.
  - by apply (setter_seeded HandlerKeys.INVOKE_ACTION).
  - by apply (setter_seeded HandlerKeys.RETRIEVE_PROPERTY).
  - by apply (setter_seeded HandlerKeys.UPDATE_PROPERTY).
Qed.

(** Every reachable state has a global handler and a table of interaction
    handlers for each seeded key. *)
Lemma reachable_seeded (s : ExposedThing) : reachable s -> seeded s.
Proof.
  induction 1 as [thing | c s _ IH].
  - apply init_seeded.
  - by apply after_seeded.
Qed.

(** C3: in every state reached from the construction by calls of the
    public methods, and for each of the three handler kinds
    (retrieve_property, update_property and invoke_action, the keys that the
    methods resolve): a handler set for an interaction is
    the one resolved for it, whatever the global handler is; setting it for
    one interaction leaves the resolution for the interactions of another
    identity as it was; and for an interaction without a handler of its
    own the resolution does not raise and gives the global handler of the
    key, which exists. *)
Theorem get_handler_resolution (s : ExposedThing) (handler_type : string)
    (interaction : Interaction) :
  reachable s ->
  handler_type ∈ seeded_keys ->
  (∀ h : handler,
     _get_handler handler_type (Some interaction)
       (_set_handler handler_type h (Some interaction) s).2 = Return h) ∧
  (∀ h : handler,
     default ∅ (_handlers s !! handler_type) !! interaction_id interaction = Some h ->
     _get_handler handler_type (Some interaction) s = Return h) ∧
  (∀ (h : handler) (other : Interaction),
     interaction_id other ≠ interaction_id interaction ->
     _get_handler handler_type (Some other)
       (_set_handler handler_type h (Some interaction) s).2
     = _get_handler handler_type (Some other) s) ∧
  (no_override handler_type (interaction_id interaction) s ->
   ∃ g : handler,
     global_is handler_type g s ∧
     _get_handler handler_type (Some interaction) s = Return g).
Proof.
  intros Hreach Hkey.
  destruct (reachable_seeded s Hreach handler_type Hkey) as [[g Hg] [table Ht]].
  split; [| split; [| split]].
  - intros h. unfold _get_handler, _set_handler, modify. cbn [snd].
    rewrite Ht. cbn [_handlers with_handlers].
    rewrite lookup_insert_eq. unfold default. cbn [from_option id].
    by rewrite lookup_insert_eq.
  - intros h Hset. unfold _get_handler. by rewrite Hset.
  - intros h other Hne. unfold _get_handler, _set_handler, modify. cbn [snd].
    rewrite Ht. cbn [_handlers _handlers_global with_handlers].
    rewrite lookup_insert_eq. unfold default. cbn [from_option id].
    by rewrite lookup_insert_ne.
  - intros Hno. exists g. split; [exact Hg |].
    by apply get_handler_global.
Qed.
End Resolution.

Lemma get_handler_resolution_witness :
  _get_handler HandlerKeys.RETRIEVE_PROPERTY (Some temp)
    (_set_handler HandlerKeys.RETRIEVE_PROPERTY echo_handler (Some temp)
       (__init__ lamp)).2 = Return echo_handler ∧
  _get_handler HandlerKeys.RETRIEVE_PROPERTY (Some serial)
    (_set_handler HandlerKeys.RETRIEVE_PROPERTY echo_handler (Some temp)
       (__init__ lamp)).2
  = _get_handler HandlerKeys.RETRIEVE_PROPERTY (Some serial) (__init__ lamp) ∧
  ∃ g : handler,
    global_is HandlerKeys.RETRIEVE_PROPERTY g (__init__ lamp) ∧
    _get_handler HandlerKeys.RETRIEVE_PROPERTY (Some temp) (__init__ lamp) = Return g.
Proof.
  destruct (@get_handler_resolution example_serializers (__init__ lamp)
              HandlerKeys.RETRIEVE_PROPERTY temp)
    as (Hset & _ & Hother & Hglobal).
  - apply reachable_init.
  - unfold seeded_keys. apply elem_of_cons. by left.
  - split; [apply Hset |]. split; [apply (Hother echo_handler serial) |].
    + vm_compute. discriminate.
    + apply Hglobal. vm_compute; reflexivity.
Defined.

(** The fourth member of [HandlerKeys], "observe", is passed to
    [_get_handler] by no method; the constructor gives it no global handler,
    and resolving it would raise KeyError. *)
Lemma get_handler_observe_raises :
  HandlerKeys.OBSERVE ∈ HandlerKeys.list ∧
  @reachable example_serializers (__init__ lamp) ∧
  no_override HandlerKeys.OBSERVE (interaction_id temp) (__init__ lamp) ∧
  _get_handler HandlerKeys.OBSERVE (Some temp) (__init__ lamp)
    = Raise (KeyError "observe").
Proof.
  split; [| split; [| split]].
  - unfold HandlerKeys.list. do 3 (apply elem_of_cons; right). apply elem_of_cons. by left.
  - apply reachable_init.
  - vm_compute; reflexivity.
  - vm_compute; reflexivity.
Qed.

(** * Further properties of the methods *)

(** ** Invoking an action through its handler *)

(** X1: for a defined action [A] whose handler resolves to [h],
    [invoke_action(A, *args)] calls [h] with the arguments alone (the name is
    not passed); when the Future of [h] resolved with [r], the invocation
    resolves with [r] and exactly one item is published, the
    ActionInvocation event of action name [A] and return value [r]; when [h]
    raised or its Future was rejected, the invocation is rejected with that
    exception and nothing is published. *)
Theorem invoke_action_publishes (s : ExposedThing) (A : string)
    (args : list value) (action : Interaction) (h : handler) :
  find_interaction (VStr A) (_thing s) = Some action ->
  _get_handler HandlerKeys.INVOKE_ACTION (Some action) s = Return h ->
  match call h args s with
  | (Return (Resolved r), s1) =>
      let item := ActionInvocationEmittedEvent
                    {| action_name := A; return_value := r |} in
      invoke_action A args s = (Resolved r, publish item s1) ∧
      _events_stream (invoke_action A args s).2 = _events_stream s ++ [item]
  | (Return (Rejected e), s1) | (Raise e, s1) =>
      invoke_action A args s = (Rejected e, s1) ∧
      _events_stream (invoke_action A args s).2 = _events_stream s
  end.
Proof.
  intros Hfind Hh.
  pose proof (find_interaction_found _ _ _ Hfind) as Hf.
  pose proof (call_events h args s) as Hev.
  assert (invoke_action A args s =
          match call h args s with
          | (Return (Resolved r), s1) =>
              (Resolved r,
               publish (ActionInvocationEmittedEvent
                          {| action_name := A; return_value := r |}) s1)
          | (Return (Rejected e), s1) | (Raise e, s1) => (Rejected e, s1)
          end) as Hinvoke.
  { unfold invoke_action, coroutine, bind, read.
    rewrite Hf, Hh.
    destruct (call h args s) as [[[r|e]|e] s1]; reflexivity. }
  rewrite Hinvoke.
  destruct (call h args s) as [[[r|e]|e] s1]; cbn in Hev |- *; by rewrite Hev.
Qed.

Lemma invoke_action_publishes_witness :
  let s := (set_action_handler echo_handler (Some "toggle") (__init__ lamp)).2 in
  let item := ActionInvocationEmittedEvent
                {| action_name := "toggle"; return_value := VInt 7 |} in
  invoke_action "toggle" [VInt 7] s
    = (Resolved (VInt 7), publish item (call echo_handler [VInt 7] s).2) ∧
  _events_stream (invoke_action "toggle" [VInt 7] s).2 = [item].
Proof.
  exact (invoke_action_publishes
           (set_action_handler echo_handler (Some "toggle") (__init__ lamp)).2
           "toggle" [VInt 7] toggle echo_handler eq_refl eq_refl).
Defined.

(** ** Names that the Thing does not know *)

(** X2: when the Thing has no interaction of the name, [write_property] and
    [invoke_action] are rejected with the ValueError "Interaction not found"
    and leave the ExposedThing as it was, whatever the handlers are. *)
Theorem write_invoke_unknown_name (s : ExposedThing) (name : string)
    (v : value) (args : list value) :
  find_interaction (VStr name) (_thing s) = None ->
  write_property name v s
    = (Rejected (ValueError "Interaction not found: {}" (VStr name)), s) ∧
  invoke_action name args s
    = (Rejected (ValueError "Interaction not found: {}" (VStr name)), s).
Proof.
  intros Hfind.
  pose proof (find_interaction_missing _ _ Hfind) as Hf.
  split.
  - unfold write_property, coroutine, bind, read. by rewrite Hf.
  - unfold invoke_action, coroutine, bind, read. by rewrite Hf.
Qed.

Lemma write_invoke_unknown_name_witness :
  write_property "colour" (VInt 1) (__init__ lamp)
    = (Rejected (ValueError "Interaction not found: {}" (VStr "colour")),
       __init__ lamp) ∧
  invoke_action "colour" [VInt 1] (__init__ lamp)
    = (Rejected (ValueError "Interaction not found: {}" (VStr "colour")),
       __init__ lamp).
Proof.
  apply (write_invoke_unknown_name (__init__ lamp) "colour" (VInt 1) [VInt 1]).
  vm_compute; reflexivity.
Defined.

(** X3: setting a handler for a name that the Thing does not know raises
    the ValueError "Interaction not found" and sets nothing, for each of the
    three setters. *)
Theorem set_handler_unknown_name (s : ExposedThing) (name : string) (h : handler) :
  find_interaction (VStr name) (_thing s) = None ->
  let e := ValueError "Interaction not found: {}" (VStr name) in
  set_action_handler h (Some name) s = (Raise e, s) ∧
  set_property_read_handler h (Some name) s = (Raise e, s) ∧
  set_property_write_handler h (Some name) s = (Raise e, s).
Proof.
  intros Hfind e.
  pose proof (find_interaction_missing _ _ Hfind) as Hf.
  unfold set_action_handler, set_property_read_handler,
    set_property_write_handler.
  repeat split; unfold bind at 1; unfold bind at 1; unfold read; by rewrite Hf.
Qed.

Lemma set_handler_unknown_name_witness :
  let e := ValueError "Interaction not found: {}" (VStr "colour") in
  set_action_handler echo_handler (Some "colour") (__init__ lamp)
    = (Raise e, __init__ lamp) ∧
  set_property_read_handler echo_handler (Some "colour") (__init__ lamp)
    = (Raise e, __init__ lamp) ∧
  set_property_write_handler echo_handler (Some "colour") (__init__ lamp)
    = (Raise e, __init__ lamp).
Proof.
  apply (set_handler_unknown_name (__init__ lamp) "colour" echo_handler).
  vm_compute; reflexivity.
Defined.

(** ** Handlers of the application *)

(** X4: after [set_property_read_handler(f, name)] for a defined name, in a
    state that has the table of read handlers, [read_property(name)] is
    answered by [f], called with the name: the Future of the read settles as
    the Future of [f] did, the default handler and the stored value are not
    consulted, and nothing is published. *)
Theorem read_property_override (s : ExposedThing) (name : string)
    (prop : Interaction)
    (f : list value -> gmap string value -> Future value * gmap string value) :
  find_interaction (VStr name) (_thing s) = Some prop ->
  is_Some (_handlers s !! HandlerKeys.RETRIEVE_PROPERTY) ->
  let s1 := (set_property_read_handler (application_handler f) (Some name) s).2 in
  (set_property_read_handler (application_handler f) (Some name) s).1 = Return tt ∧
  read_property name s1
    = ((f [VStr name] (property_values s)).1,
       with_property_values (f [VStr name] (property_values s)).2 s1) ∧
  _events_stream (read_property name s1).2 = _events_stream s.
Proof.
  intros Hfind [table Ht] s1.
  pose proof (find_interaction_found _ _ _ Hfind) as Hf.
  assert (set_property_read_handler (application_handler f) (Some name) s
          = (Return tt,
             with_handlers
               (<[HandlerKeys.RETRIEVE_PROPERTY :=
                    <[interaction_id prop := application_handler f]> table]>
                  (_handlers s)) s)) as Hset.
  { unfold set_property_read_handler.
    unfold bind at 1. unfold bind at 1. unfold read. rewrite Hf. cbn [ret].
    unfold _set_handler, modify. by rewrite Ht. }
  subst s1. rewrite Hset. cbn [fst snd].
  split; [reflexivity |].
  assert (∀ s2, _thing s2 = _thing s ->
            _handlers s2 = <[HandlerKeys.RETRIEVE_PROPERTY :=
                    <[interaction_id prop := application_handler f]> table]>
                  (_handlers s) ->
            property_values s2 = property_values s ->
            read_property name s2
            = ((f [VStr name] (property_values s)).1,
               with_property_values (f [VStr name] (property_values s)).2 s2))
    as Hread.
  { intros s2 Hthing Hhandlers Hvalues.
    unfold read_property, coroutine, bind, read, _find_interaction, _get_handler.
    rewrite Hthing, Hfind, Hhandlers, lookup_insert_eq.
    unfold default. cbn [from_option id]. rewrite lookup_insert_eq.
    cbn [call]. rewrite Hvalues.
    by destruct (f [VStr name] (property_values s)) as [[a|e] pv]. }
  rewrite Hread by reflexivity.
  split; reflexivity.
Qed.

Lemma read_property_override_witness :
  let f := fun (args : list value) (pv : gmap string value) =>
             (Resolved (VStr "from the handler"), pv) in
  let s1 := (set_property_read_handler (application_handler f) (Some "temp")
               (__init__ lamp)).2 in
  (set_property_read_handler (application_handler f) (Some "temp")
     (__init__ lamp)).1 = Return tt ∧
  read_property "temp" s1
    = (Resolved (VStr "from the handler"),
       with_property_values (property_values (__init__ lamp)) s1) ∧
  _events_stream (read_property "temp" s1).2 = [].
Proof.
  intros f s1.
  apply (read_property_override (__init__ lamp) "temp" temp f).
  - vm_compute; reflexivity.
  - vm_compute. eauto.
Defined.

(** X5: setting a global handler (no interaction given) replaces the
    handler resolved for every interaction that has none of its own and
    for the resolution without an interaction, and leaves the handler of an
    interaction that has its own as it is. *)
Theorem set_global_handler_resolution (s : ExposedThing)
    (handler_type : string) (g : handler) :
  let s1 := (_set_handler handler_type g None s).2 in
  _get_handler handler_type None s1 = Return g ∧
  (∀ i : Interaction,
     no_override handler_type (interaction_id i) s ->
     _get_handler handler_type (Some i) s1 = Return g) ∧
  (∀ (i : Interaction) (h : handler),
     default ∅ (_handlers s !! handler_type) !! interaction_id i = Some h ->
     _get_handler handler_type (Some i) s1 = Return h).
Proof.
  intros s1. subst s1. unfold _set_handler, modify, _get_handler, no_override.
  cbn [snd _handlers _handlers_global with_handlers_global].
  split; [| split].
  - by rewrite lookup_insert_eq.
  - intros i Hno. by rewrite Hno, lookup_insert_eq.
  - intros i h Hset. by rewrite Hset.
Qed.

Lemma set_global_handler_resolution_witness :
  let s := (set_action_handler rejecting_handler (Some "toggle") (__init__ lamp)).2 in
  let s1 := (_set_handler HandlerKeys.INVOKE_ACTION echo_handler None s).2 in
  _get_handler HandlerKeys.INVOKE_ACTION (Some temp) s1 = Return echo_handler ∧
  _get_handler HandlerKeys.INVOKE_ACTION (Some toggle) s1 = Return rejecting_handler.
Proof.
  intros s s1.
  destruct (set_global_handler_resolution s HandlerKeys.INVOKE_ACTION echo_handler)
    as (_ & Hglobal & Hown).
  split.
  - apply (Hglobal temp). vm_compute; reflexivity.
  - apply (Hown toggle rejecting_handler). vm_compute; reflexivity.
Defined.

(** X6: for a handler key that has no table of interaction handlers (as
    "observe" in a new ExposedThing), a handler set for one interaction is
    stored as the global handler of the key: it is resolved for every
    interaction, and the tables of interaction handlers are unchanged. *)
Theorem set_handler_without_table (s : ExposedThing) (handler_type : string)
    (h : handler) (interaction : Interaction) :
  _handlers s !! handler_type = None ->
  let s1 := (_set_handler handler_type h (Some interaction) s).2 in
  _handlers s1 = _handlers s ∧
  ∀ other : option Interaction, _get_handler handler_type other s1 = Return h.
Proof.
  intros Hnone s1. subst s1. unfold _set_handler, modify. rewrite Hnone.
  cbn [snd]. split; [reflexivity |].
  intros other. unfold _get_handler.
  cbn [_handlers _handlers_global with_handlers_global].
  rewrite Hnone, lookup_insert_eq. unfold default. cbn [from_option].
  destruct other as [o|]; [by rewrite lookup_empty | done].
Qed.

Lemma set_handler_without_table_witness :
  let s1 := (_set_handler HandlerKeys.OBSERVE echo_handler (Some temp)
               (__init__ lamp)).2 in
  _handlers s1 = _handlers (__init__ lamp) ∧
  ∀ other : option Interaction,
    _get_handler HandlerKeys.OBSERVE other s1 = Return echo_handler.
Proof.
  apply (set_handler_without_table (__init__ lamp) HandlerKeys.OBSERVE
           echo_handler temp).
  vm_compute; reflexivity.
Defined.

(** ** The values of the other properties *)

(** X7: through the default handlers, writing a property leaves the value
    read from a property of another identity as it was. *)
Theorem write_property_other_value (s : ExposedThing) (P Q : string)
    (v : value) (p q : Interaction) :
  find_interaction (VStr P) (_thing s) = Some p ->
  find_interaction (VStr Q) (_thing s) = Some q ->
  interaction_id q ≠ interaction_id p ->
  writable_of p = Return true ->
  no_override HandlerKeys.UPDATE_PROPERTY (interaction_id p) s ->
  global_is HandlerKeys.UPDATE_PROPERTY _default_update_property s ->
  no_override HandlerKeys.RETRIEVE_PROPERTY (interaction_id q) s ->
  global_is HandlerKeys.RETRIEVE_PROPERTY _default_retrieve_property s ->
  (read_property Q (write_property P v s).2).1 = (read_property Q s).1.
Proof.
  intros Hp Hq Hne Hw Hnu Hgu Hnr Hgr.
  rewrite (write_property_default s P v p Hp Hw Hnu Hgu). cbn [snd].
  rewrite (read_property_default s Q q Hq Hnr Hgr).
  rewrite (read_property_default _ Q q); [| exact Hq | exact Hnr | exact Hgr].
  cbn [fst]. unfold _get_property_value. cbn [property_values publish with_property_values].
  by rewrite lookup_insert_ne.
Qed.

Lemma write_property_other_value_witness :
  (read_property "serial" (write_property "temp" (VInt 20) (__init__ lamp)).2).1
  = (read_property "serial" (__init__ lamp)).1.
Proof.
  apply (write_property_other_value (__init__ lamp) "temp" "serial" (VInt 20)
           temp serial); vm_compute; (reflexivity || discriminate).
Defined.

(** ** What a call leaves alone *)








Section Frames.
Context `{Serializers}.



End Frames.




(** ** What the observers of the Thing Description are sent *)

Section DescriptionObservers.
Context `{Serializers}.

End DescriptionObservers.


(** ** Adding an action or an event, then using it *)

Section AddThenUse.
Context `{Serializers}.

(** X12: [add_action(name, init)] publishes exactly one item, the
    DescriptionChange event (Action, Add, name) with the serialized init
    dictionary and the description of the Thing with the action added, and
    stores no value; in a state that has the table of action handlers, a
    handler [f] can then be set for the name, and [invoke_action(name,
    *args)] is answered by [f] called with the arguments: resolved with the
    result and one ActionInvocation item published, or rejected with the
    exception of [f] and nothing published. *)
Theorem add_action_then_invoke (s : ExposedThing) (name : string)
    (action_init : ThingActionInit) (args : list value)
    (f : list value -> gmap string value -> Future value * gmap string value) :
  is_Some (_handlers s !! HandlerKeys.INVOKE_ACTION) ->
  let s1 := (add_action name action_init s).2 in
  let s2 := (set_action_handler (application_handler f) (Some name) s1).2 in
  _events_stream s1 = _events_stream s ++
    [ThingDescriptionChangeEmittedEvent
       {| td_change_type := ACTION; method := ADD; name := name;
          data := Some (action_init_to_dict action_init);
          description := Some (thing_description_to_dict (_thing s1)) |}] ∧
  property_values s1 = property_values s ∧
  (set_action_handler (application_handler f) (Some name) s1).1 = Return tt ∧
  invoke_action name args s2 =
    match f args (property_values s) with
    | (Resolved r, pv) =>
        (Resolved r,
         publish (ActionInvocationEmittedEvent
                    {| action_name := name; return_value := r |})
           (with_property_values pv s2))
    | (Rejected e, pv) => (Rejected e, with_property_values pv s2)
    end.
Proof.
  intros [table Ht] s1 s2.
  set (action := Action name (ai_label action_init) (ai_description action_init)
                   (ai_output action_init) (ai_input action_init)).
  assert (find_interaction (VStr name) (_thing s1) = Some action) as Hfind.
  { subst s1. cbn. by rewrite lookup_insert_eq. }
  pose proof (find_interaction_found _ _ _ Hfind) as Hf.
  assert (_handlers s1 !! HandlerKeys.INVOKE_ACTION = Some table) as Ht1
    by exact Ht.
  assert (set_action_handler (application_handler f) (Some name) s1
          = (Return tt,
             with_handlers
               (<[HandlerKeys.INVOKE_ACTION :=
                    <[name := application_handler f]> table]> (_handlers s1)) s1))
    as Hset.
  { unfold set_action_handler, bind, read, ret. rewrite Hf.
    unfold _set_handler, modify. by rewrite Ht1. }
  split; [reflexivity |]. split; [reflexivity |].
  subst s2. rewrite Hset. cbn [fst snd]. split; [reflexivity |].
  unfold invoke_action, coroutine, bind, read, _find_interaction, _get_handler.
  cbn [_thing with_handlers _handlers].
  rewrite Hfind, lookup_insert_eq. unfold default. cbn [from_option id].
  change (interaction_id action) with name. rewrite lookup_insert_eq.
  cbn [call property_values with_handlers].
  change (property_values s1) with (property_values s).
  by destruct (f args (property_values s)) as [[r|e] pv].
Qed.

End AddThenUse.

Lemma add_action_then_invoke_witness :
  let f := fun (args : list value) (pv : gmap string value) =>
             (Resolved (default VNone (head args)), pv) in
  let s1 := (@add_action example_serializers "dim"
               {| ai_label := VNone; ai_description := VStr "dim the lamp";
                  ai_output := VNone; ai_input := VStr "number" |}
               (__init__ lamp)).2 in
  let s2 := (set_action_handler (application_handler f) (Some "dim") s1).2 in
  (invoke_action "dim" [VInt 3] s2).1 = Resolved (VInt 3) ∧
  _events_stream (invoke_action "dim" [VInt 3] s2).2
    = _events_stream s1 ++
      [ActionInvocationEmittedEvent
         {| action_name := "dim"; return_value := VInt 3 |}].
Proof.
  intros f s1 s2.
  destruct (@add_action_then_invoke example_serializers (__init__ lamp) "dim"
              {| ai_label := VNone; ai_description := VStr "dim the lamp";
                 ai_output := VNone; ai_input := VStr "number" |}
              [VInt 3] f) as (_ & _ & _ & Hinvoke).
  - vm_compute. eauto.
  - fold s1 s2 in Hinvoke. rewrite Hinvoke. split; reflexivity.
Defined.

(** ** A writable property that is not observable *)

(** X14: [write_property] does not look at the [observable] flag: for a
    writable property that is not observable, the write through the default
    handler resolves and publishes its PropertyChange item, while
    [on_property_change] for the same name gives the Observable that fails
    with "Property is not observable". *)
Theorem write_property_not_observable (s : ExposedThing) (P : string)
    (v : value) (prop : Interaction) :
  find_interaction (VStr P) (_thing s) = Some prop ->
  writable_of prop = Return true ->
  observable_of prop = Return false ->
  no_override HandlerKeys.UPDATE_PROPERTY (interaction_id prop) s ->
  global_is HandlerKeys.UPDATE_PROPERTY _default_update_property s ->
  (write_property P v s).1 = Resolved VNone ∧
  _events_stream (write_property P v s).2
    = _events_stream s
      ++ [PropertyChangeEmittedEvent {| pc_name := P; pc_value := v |}] ∧
  on_property_change P s
    = Return (Observable_throw (Exception "Property is not observable")).
Proof.
  intros Hfind Hw Hobs Hno Hg.
  rewrite (write_property_default s P v prop Hfind Hw Hno Hg).
  split; [reflexivity |]. split; [reflexivity |].
  unfold on_property_change.
  by rewrite (find_interaction_found _ _ _ Hfind), Hobs.
Qed.

Lemma write_property_not_observable_witness :
  let dimmer := Property "dimmer" VNone VNone (VStr "number") true false in
  let s := __init__ {| thing_name := "lamp";
                       interactions := <["dimmer" := dimmer]> ∅ |} in
  (write_property "dimmer" (VInt 5) s).1 = Resolved VNone ∧
  _events_stream (write_property "dimmer" (VInt 5) s).2
    = _events_stream s
      ++ [PropertyChangeEmittedEvent {| pc_name := "dimmer"; pc_value := VInt 5 |}] ∧
  on_property_change "dimmer" s
    = Return (Observable_throw (Exception "Property is not observable")).
Proof.
  intros dimmer s.
  apply (write_property_not_observable s "dimmer" (VInt 5) dimmer);
    vm_compute; reflexivity.
Defined.
